(** * The AZTEC Cryptography Engine (ACE.sol): validator registry, proof
      dispatch and the ledger of validated balanced proofs.

    A shallow embedding of [contracts/ACE/ACE.sol].  Words of the EVM are
    integers [Z]; the contract's storage is an explicit state record, and
    every external function is a computation in a small state-and-revert
    monad [EVM].  A transaction that reverts leaves the chain state as it
    was ([commit]).

    Storage layout.  [validators] ([address[0x100][0x100][0x10000]]) and
    [disabledValidators] ([bool[0x100][0x100][0x10000]]) are kept as the raw
    storage words of their regions, indexed by the slot offset from the
    variable's base slot, because the contract reads them both through
    Solidity indexing and through hand-written [sload]s:
    - an [address] takes a whole slot, so [validators[e][c][i]] sits at
      offset [e * 0x10000 + c * 0x100 + i];
    - Solidity packs 32 [bool]s into one slot (an inner [bool[0x100]] takes
      8 slots, a [bool[0x100][0x100]] takes 0x800 slots), so
      [disabledValidators[e][c][i]] is byte [i mod 32] of the slot at offset
      [e * 0x800 + c * 8 + i / 32].
    The mapping [validatedProofs] is keyed in the source by
    [keccak256(abi.encode(proofHash, _proof, sender))]; that 96-byte
    encoding is taken collision-free and the mapping is keyed by the triple
    itself.  The hash of a proof output ([keccak256(proofOutputs.get(i))])
    stays an arbitrary function [keccak256]. *)

From Stdlib Require Import ZArith Lia List Bool.
From stdpp Require Import base gmap.
Import ListNotations.
Open Scope Z_scope.

(** Revert reasons of ACE.sol, by their [require] message. *)
Inductive Err :=
| Unauthorized            (* "only the owner can ..." *)
| UnknownValidator        (* "expected the validator address to exist",
                             "can only invalidate proofs that exist!" *)
| DisabledValidator       (* "expected the validator address to not be disabled",
                             "this proof id has been invalidated!" *)
| AlreadyRegistered       (* "existing proofs cannot be modified" *)
| EpochExceeded           (* "the proof epoch cannot be bigger than the latest epoch" *)
| InvalidFingerprint      (* "expected no empty proof hash" *)
| NotPreviouslyValidated  (* "can only clear previously validated proofs" *)
| ValidationRejected      (* the validator's staticcall failed: revert with 400 *)
| Overflow.               (* SafeMath8 addition overflow *)

(** The storage of ACE that the validation core uses. *)
Record State := mkState {
  owner : Z;                              (* Ownable._owner *)
  commonReferenceString : list Z;         (* bytes32[6] *)
  validators : gmap Z Z;                  (* raw words, by slot offset *)
  disabledValidators : gmap Z Z;          (* raw words, by slot offset *)
  latestEpoch : Z;                        (* uint8 *)
  validatedProofs : gmap (Z * Z * Z) bool (* (proofHash, _proof, sender) *)
}.

(** Storage reads: an unwritten slot holds zero. *)
Definition sload (m : gmap Z Z) (k : Z) : Z := default 0 (m !! k).
Definition mload_bool (m : gmap (Z * Z * Z) bool) (k : Z * Z * Z) : bool :=
  default false (m !! k).

Definition set_commonReferenceString (c : list Z) (st : State) : State :=
  mkState (owner st) c (validators st) (disabledValidators st)
    (latestEpoch st) (validatedProofs st).
Definition set_validators (v : gmap Z Z) (st : State) : State :=
  mkState (owner st) (commonReferenceString st) v (disabledValidators st)
    (latestEpoch st) (validatedProofs st).
Definition set_disabledValidators (d : gmap Z Z) (st : State) : State :=
  mkState (owner st) (commonReferenceString st) (validators st) d
    (latestEpoch st) (validatedProofs st).
Definition set_latestEpoch (e : Z) (st : State) : State :=
  mkState (owner st) (commonReferenceString st) (validators st)
    (disabledValidators st) e (validatedProofs st).
Definition set_validatedProofs (l : gmap (Z * Z * Z) bool) (st : State) : State :=
  mkState (owner st) (commonReferenceString st) (validators st)
    (disabledValidators st) (latestEpoch st) l.

(** ** The EVM monad: state passing with revert. *)
Inductive result (A : Type) :=
| Ok (a : A)
| Revert (e : Err).
Arguments Ok {A} a.
Arguments Revert {A} e.

Definition EVM (A : Type) := State -> result (A * State).

Definition ret {A} (a : A) : EVM A := fun st => Ok (a, st).
Definition bindE {A B} (m : EVM A) (k : A -> EVM B) : EVM B :=
  fun st => match m st with
            | Ok (a, st') => k a st'
            | Revert e => Revert e
            end.
Notation "x <~ m ;; k" := (bindE m (fun x => k))
  (at level 100, m at next level, right associativity).
Notation "m ;;; k" := (bindE m (fun _ => k))
  (at level 100, right associativity).

Definition get : EVM State := fun st => Ok (st, st).
Definition modify (f : State -> State) : EVM unit := fun st => Ok (tt, f st).
Definition revert {A} (e : Err) : EVM A := fun _ => Revert e.
Definition require (b : bool) (e : Err) : EVM unit :=
  if b then ret tt else revert e.

(** The chain state after a transaction: a revert undoes everything. *)
Definition commit {A} (m : EVM A) (st : State) : State :=
  match m st with
  | Ok (_, st') => st'
  | Revert _ => st
  end.

(** ** Libraries of the repository that ACE.sol uses *)

(** Modelled from the spec: [ProofUtils.getProofComponents]
    (contracts/libs/ProofUtils.sol, not among the sources): a proof
    identifier is a 24-bit value made of three 8-bit fields
    (epoch, category, id), epoch in the high byte (the comments of
    [validateProofByHash] spell out the same split). *)
Definition getProofComponents (proof : Z) : Z * Z * Z :=
  (Z.land (Z.shiftr proof 16) 255, Z.land (Z.shiftr proof 8) 255, Z.land proof 255).

(** Modelled from the spec: [ProofCategory.BALANCED] of
    contracts/interfaces/IAZTEC.sol (not among the sources), the category
    whose outputs are recorded; its enum position is 1. *)
Definition BALANCED : Z := 1.

(** Modelled from the spec: [SafeMath8.add] (contracts/libs/SafeMath8.sol,
    not among the sources), the checked 8-bit addition of the SafeMath
    family: the sum wraps at 256 and a wrapped result reverts, which keeps
    the spec's LatestEpoch increasing. *)
Definition SafeMath8_add (a b : Z) : EVM Z :=
  let c := (a + b) mod 256 in
  require (a <=? c) Overflow ;;; ret c.

(** Slot offsets that Solidity computes for the two 3-dimensional arrays. *)
Definition validators_slot_of (epoch category id : Z) : Z :=
  epoch * 65536 + category * 256 + id.
Definition disabled_slot_of (epoch category id : Z) : Z :=
  epoch * 2048 + category * 8 + Z.shiftr id 5.
Definition disabled_shift_of (id : Z) : Z := 8 * (id mod 32).

(** A packed [bool] store: byte [sh/8] of [word] becomes [b]. *)
Definition store_packed_bool (word sh : Z) (b : bool) : Z :=
  Z.lor (Z.land word (Z.lnot (Z.shiftl 255 sh))) (Z.shiftl (Z.b2z b) sh).

Definition isOwner (msg_sender : Z) (st : State) : bool := msg_sender =? owner st.

(** The epoch field of an identifier, and the [validators] slot that
    [setProof] and [invalidateProof] reach through Solidity indexing. *)
Definition proof_epoch (proof : Z) : Z :=
  let '(epoch, _, _) := getProofComponents proof in epoch.
Definition proof_slot (proof : Z) : Z :=
  let '(epoch, category, id) := getProofComponents proof in
  validators_slot_of epoch category id.

(** ** The external functions of ACE.sol

    Every function takes [msg_sender], the caller of the transaction. *)

(** [getValidatorAddress]: both words are read with raw [sload]s at the
    offset [_proof]; the two [require]s only run when one of them fails. *)
Definition getValidatorAddress (proof : Z) : EVM Z :=
  st <~ get ;;
  let isValidatorDisabled := sload (disabledValidators st) proof in
  let validatorAddress := sload (validators st) proof in
  let queryInvalid := (validatorAddress =? 0) || negb (isValidatorDisabled =? 0) in
  (if queryInvalid then
     require (negb (validatorAddress =? 0)) UnknownValidator ;;;
     require (isValidatorDisabled =? 0) DisabledValidator
   else ret tt) ;;;
  ret validatorAddress.

(** [validateProofByHash]: the revocation word is again read raw at offset
    [_proof]; the ledger value is read before the [require]. *)
Definition validateProofByHash (proof proofHash sender : Z) : EVM bool :=
  st <~ get ;;
  let isValidatorDisabled := sload (disabledValidators st) proof in
  let isProofValid := mload_bool (validatedProofs st) (proofHash, proof, sender) in
  require (isValidatorDisabled =? 0) DisabledValidator ;;;
  ret isProofValid.

(** [clearProofByHashes]: the [for] loop over [_proofHashes]; each round
    checks and clears one record keyed by [msg.sender]. *)
Fixpoint clearProofByHashes (msg_sender proof : Z) (proofHashes : list Z) : EVM unit :=
  match proofHashes with
  | [] => ret tt
  | proofHash :: rest =>
    require (negb (proofHash =? 0)) InvalidFingerprint ;;;
    st <~ get ;;
    let validatedProofHash := (proofHash, proof, msg_sender) in
    require (mload_bool (validatedProofs st) validatedProofHash) NotPreviouslyValidated ;;;
    modify (fun st =>
      set_validatedProofs (<[validatedProofHash := false]> (validatedProofs st)) st) ;;;
    clearProofByHashes msg_sender proof rest
  end.

Definition setCommonReferenceString (msg_sender : Z) (crs : list Z) : EVM unit :=
  st <~ get ;;
  require (isOwner msg_sender st) Unauthorized ;;;
  modify (set_commonReferenceString crs).

(** [invalidateProof]: Solidity indexing, so the packed layout of
    [disabledValidators] applies to the write. *)
Definition invalidateProof (msg_sender proof : Z) : EVM unit :=
  st <~ get ;;
  require (isOwner msg_sender st) Unauthorized ;;;
  let '(epoch, category, id) := getProofComponents proof in
  require (negb (sload (validators st) (validators_slot_of epoch category id) =? 0))
    UnknownValidator ;;;
  let slot := disabled_slot_of epoch category id in
  modify (fun st =>
    set_disabledValidators
      (<[slot := store_packed_bool (sload (disabledValidators st) slot)
                   (disabled_shift_of id) true]> (disabledValidators st)) st).

Definition setProof (msg_sender proof validatorAddress : Z) : EVM unit :=
  st <~ get ;;
  require (isOwner msg_sender st) Unauthorized ;;;
  let '(epoch, category, id) := getProofComponents proof in
  require (epoch <=? latestEpoch st) EpochExceeded ;;;
  require (sload (validators st) (validators_slot_of epoch category id) =? 0)
    AlreadyRegistered ;;;
  modify (fun st =>
    set_validators
      (<[validators_slot_of epoch category id := validatorAddress]> (validators st)) st).

Definition incrementLatestEpoch (msg_sender : Z) : EVM unit :=
  st <~ get ;;
  require (isOwner msg_sender st) Unauthorized ;;;
  e <~ SafeMath8_add (latestEpoch st) 1 ;;
  modify (set_latestEpoch e).

Definition getCommonReferenceString : EVM (list Z) :=
  st <~ get ;; ret (commonReferenceString st).

(** The state right after the constructor ([latestEpoch = 1]). *)
Definition deploy (deployer : Z) : State :=
  mkState deployer [0; 0; 0; 0; 0; 0] ∅ ∅ 1 ∅.

(** Modelled from the spec: [NoteUtils.getLength] and [NoteUtils.get]
    (contracts/libs/NoteUtils.sol, not among the sources) read the
    [bytes proofOutputs] returned by a validator as an ordered sequence of
    sub-outputs, each a byte string. *)
Definition ProofOutputs := list (list Z).

Section Dispatch.

(** [keccak256] of one proof output. *)
Variable keccak256 : list Z -> Z.

(** The validator contract at an address, reached by [staticcall] with
    [(_proofData, _sender, commonReferenceString)].  A static call may read
    ACE's state (its view functions) but cannot write it; [None] is a failed
    call. *)
Variable staticcall : Z -> State -> list Z -> Z -> list Z -> option ProofOutputs.

Definition callValidator (validatorAddress sender : Z) (proofData : list Z)
  : EVM ProofOutputs :=
  st <~ get ;;
  match staticcall validatorAddress st proofData sender (commonReferenceString st) with
  | None => revert ValidationRejected
  | Some proofOutputs => ret proofOutputs
  end.

(** The [for] loop of [validateProof] over the proof outputs: the record is
    keyed by [msg.sender], the caller of [validateProof]. *)
Fixpoint recordProofOutputs (msg_sender proof : Z) (outs : ProofOutputs) : EVM unit :=
  match outs with
  | [] => ret tt
  | o :: rest =>
    let proofHash := keccak256 o in
    let validatedProofHash := (proofHash, proof, msg_sender) in
    modify (fun st =>
      set_validatedProofs (<[validatedProofHash := true]> (validatedProofs st)) st) ;;;
    recordProofOutputs msg_sender proof rest
  end.

Definition validateProof (msg_sender proof sender : Z) (proofData : list Z)
  : EVM ProofOutputs :=
  validatorAddress <~ getValidatorAddress proof ;;
  proofOutputs <~ callValidator validatorAddress sender proofData ;;
  (if Z.land (Z.shiftr proof 8) 255 =? BALANCED
   then recordProofOutputs msg_sender proof proofOutputs
   else ret tt) ;;;
  ret proofOutputs.

(** The transactions that can write ACE's storage (the view functions
    cannot). *)
Inductive Tx :=
| TxValidateProof (from proof sender : Z) (proofData : list Z)
| TxClearProofByHashes (from proof : Z) (proofHashes : list Z)
| TxSetCommonReferenceString (from : Z) (crs : list Z)
| TxInvalidateProof (from proof : Z)
| TxSetProof (from proof validatorAddress : Z)
| TxIncrementLatestEpoch (from : Z).

Definition run_tx (tx : Tx) : EVM unit :=
  match tx with
  | TxValidateProof from proof sender d => validateProof from proof sender d ;;; ret tt
  | TxClearProofByHashes from proof hs => clearProofByHashes from proof hs
  | TxSetCommonReferenceString from crs => setCommonReferenceString from crs
  | TxInvalidateProof from proof => invalidateProof from proof
  | TxSetProof from proof a => setProof from proof a
  | TxIncrementLatestEpoch from => incrementLatestEpoch from
  end.

(** The chain state after a transaction. *)
Definition exec (tx : Tx) (st : State) : State := commit (run_tx tx) st.

End Dispatch.

(** ** Ledger contents after the loops of [validateProof] and
    [clearProofByHashes] *)

Fixpoint record_map (keccak256 : list Z -> Z) (msg_sender proof : Z)
    (outs : ProofOutputs) (m : gmap (Z * Z * Z) bool) : gmap (Z * Z * Z) bool :=
  match outs with
  | [] => m
  | o :: rest =>
    record_map keccak256 msg_sender proof rest (<[(keccak256 o, proof, msg_sender) := true]> m)
  end.

Fixpoint clear_map (msg_sender proof : Z) (proofHashes : list Z)
    (m : gmap (Z * Z * Z) bool) : gmap (Z * Z * Z) bool :=
  match proofHashes with
  | [] => m
  | h :: rest => clear_map msg_sender proof rest (<[(h, proof, msg_sender) := false]> m)
  end.

(** The packed slot and bit offset that [invalidateProof] writes. *)
Definition proof_disabled_slot (proof : Z) : Z :=
  let '(epoch, category, id) := getProofComponents proof in
  disabled_slot_of epoch category id.
Definition proof_disabled_shift (proof : Z) : Z :=
  let '(_, _, id) := getProofComponents proof in disabled_shift_of id.

(** The public getter [disabledValidators(epoch, category, id)] that
    Solidity generates for the array: it reads the packed [bool], byte
    [id mod 32] of the slot. *)
Definition disabledValidators_getter (st : State) (epoch category id : Z) : bool :=
  negb (Z.land (Z.shiftr (sload (disabledValidators st) (disabled_slot_of epoch category id))
                  (disabled_shift_of id)) 255 =? 0).

(** The caller of a transaction. *)
Definition tx_sender (tx : Tx) : Z :=
  match tx with
  | TxValidateProof from _ _ _ | TxClearProofByHashes from _ _
  | TxSetCommonReferenceString from _ | TxInvalidateProof from _
  | TxSetProof from _ _ | TxIncrementLatestEpoch from => from
  end.

(** ** Sample inputs: a hash function and a validator used to run the
    contract on concrete transactions. *)
Definition sample_hash (o : list Z) : Z := fold_right Z.add 1 o.

(** The validator deployed at address 170 accepts every proof and returns
    two outputs; any other address fails the call. *)
Definition sample_validator (a : Z) (st : State) (proofData : list Z)
    (sender : Z) (crs : list Z) : option ProofOutputs :=
  if a =? 170 then Some [[1]; [2]] else None.

(** Owner 1 registers the validator at address 170 for proof 0x010101
    (epoch 1, category BALANCED, id 1). *)
Definition st_registered : State := commit (setProof 1 65793 170) (deploy 1).

(** Proof 0x010201 (epoch 1, category 2, id 1) bound to the same validator. *)
Definition st_nonbalanced : State := commit (setProof 1 66049 170) (deploy 1).

(** Caller 1 validates proof 0x010101 with [_sender = 7]. *)
Definition st_validated : State :=
  commit (validateProof sample_hash sample_validator 1 65793 7 []) st_registered.

(** The owner revokes proof 0x010101. *)
Definition st_invalidated : State := commit (invalidateProof 1 65793) st_registered.

(** The owner binds proof 0x010101 to the zero address. *)
Definition st_zero_handle : State := commit (setProof 1 65793 0) (deploy 1).

(** The owner increments the epoch 254 times from its initial value 1. *)
Definition st_epoch_max : State :=
  Nat.iter 254 (commit (incrementLatestEpoch 1)) (deploy 1).

(** Owner 1 also binds proof 0x000808 (epoch 0, category 8, id 8), whose
    raw slot offset 0x808 is the packed slot of [disabledValidators[1][1][1]]. *)
Definition st_two_registered : State := commit (setProof 1 2056 171) st_registered.

(** ** Facts about the embedding *)

Ltac evm_unfold :=
  simpl in *; unfold bindE, get, modify, ret, revert, require in *; simpl in *.

Lemma set_validatedProofs_twice l l' st :
  set_validatedProofs l (set_validatedProofs l' st) = set_validatedProofs l st.
Proof. destruct st; reflexivity. Qed.

Lemma set_validatedProofs_same st : set_validatedProofs (validatedProofs st) st = st.
Proof. destruct st; reflexivity. Qed.

Lemma getValidatorAddress_ok proof st a st' :
  getValidatorAddress proof st = Ok (a, st') ->
  st' = st /\ a = sload (validators st) proof /\ a <> 0 /\
  sload (disabledValidators st) proof = 0.
Proof.
  unfold getValidatorAddress. evm_unfold.
  destruct (sload (validators st) proof =? 0) eqn:Ha;
  destruct (sload (disabledValidators st) proof =? 0) eqn:Hd;
  simpl; intros H; inversion H; subst;
  rewrite ?Z.eqb_eq, ?Z.eqb_neq in *; auto.
Qed.

Lemma getValidatorAddress_unknown proof st :
  sload (validators st) proof = 0 -> getValidatorAddress proof st = Revert UnknownValidator.
Proof.
  intros H. unfold getValidatorAddress. evm_unfold. rewrite H. reflexivity.
Qed.

Lemma clearProofByHashes_validators msg_sender proof hs st st' :
  clearProofByHashes msg_sender proof hs st = Ok (tt, st') ->
  st' = set_validatedProofs (validatedProofs st') st.
Proof.
  revert st. induction hs as [| h hs IH]; intros st H; evm_unfold.
  - inversion H; subst. symmetry. apply set_validatedProofs_same.
  - destruct (h =? 0); simpl in H; [discriminate |].
    destruct (mload_bool (validatedProofs st) (h, proof, msg_sender)); [| discriminate].
    apply IH in H. rewrite H at 1. apply set_validatedProofs_twice.
Qed.

Lemma clear_map_notin msg_sender proof hs m k :
  (forall h, In h hs -> k <> (h, proof, msg_sender)) ->
  clear_map msg_sender proof hs m !! k = m !! k.
Proof.
  revert m. induction hs as [| h hs IH]; intros m Hk; simpl; [reflexivity |].
  rewrite IH by (intros h' Hh'; apply Hk; right; exact Hh').
  apply lookup_insert_ne. intros Heq. apply (Hk h); [left; reflexivity | symmetry; exact Heq].
Qed.

Lemma clear_map_in msg_sender proof hs m h :
  In h hs -> clear_map msg_sender proof hs m !! (h, proof, msg_sender) = Some false.
Proof.
  revert m. induction hs as [| h' hs IH]; intros m Hin; simpl; [contradiction |].
  destruct (in_dec Z.eq_dec h hs) as [Hr | Hr]; [apply IH; exact Hr |].
  destruct Hin as [-> | Hin]; [| contradiction].
  rewrite clear_map_notin.
  - apply lookup_insert_eq.
  - intros h'' Hh'' Heq. inversion Heq; subst. contradiction.
Qed.

Lemma clearProofByHashes_run msg_sender proof hs st st' :
  clearProofByHashes msg_sender proof hs st = Ok (tt, st') ->
  validatedProofs st' = clear_map msg_sender proof hs (validatedProofs st).
Proof.
  revert st. induction hs as [| h hs IH]; intros st H; evm_unfold.
  - inversion H; subst. reflexivity.
  - destruct (h =? 0); simpl in H; [discriminate |].
    destruct (mload_bool (validatedProofs st) (h, proof, msg_sender)); [| discriminate].
    apply IH in H. exact H.
Qed.

(** A 24-bit identifier is its own slot offset in [validators]. *)
Lemma proof_slot_id proof : 0 <= proof < 16777216 -> proof_slot proof = proof.
Proof.
  intros Hp. unfold proof_slot, getProofComponents, validators_slot_of.
  change 255 with (Z.ones 8).
  rewrite !Z.land_ones, !Z.shiftr_div_pow2 by lia.
  change (2 ^ 16) with 65536. change (2 ^ 8) with 256.
  rewrite (Z.mod_small (proof / 65536)) by (split; [apply Z.div_pos | apply Z.div_lt_upper_bound]; lia).
  rewrite (Z.mod_eq (proof / 256)) by lia.
  rewrite Z.div_div by lia. change (256 * 256) with 65536.
  pose proof (Z.div_mod proof 256 ltac:(lia)). lia.
Qed.

Lemma commit_preserves {A} (Q : State -> Prop) (m : EVM A) st :
  Q st -> (forall a st', m st = Ok (a, st') -> Q st') -> Q (commit m st).
Proof.
  intros H0 H1. unfold commit. destruct (m st) as [[a st'] | e] eqn:E; [| exact H0].
  exact (H1 a st' eq_refl).
Qed.

(** [setProof] either reverts or writes the one empty slot it checked. *)
Lemma setProof_ok c proof h st st' :
  setProof c proof h st = Ok (tt, st') ->
  isOwner c st = true /\ proof_epoch proof <= latestEpoch st /\
  sload (validators st) (proof_slot proof) = 0 /\
  st' = set_validators (<[proof_slot proof := h]> (validators st)) st.
Proof.
  unfold setProof, proof_epoch, proof_slot.
  destruct (getProofComponents proof) as [[e ca] i].
  evm_unfold. destruct (isOwner c st) eqn:Ho; simpl; [| discriminate].
  destruct (e <=? latestEpoch st) eqn:He; simpl; [| discriminate].
  destruct (sload (validators st) (validators_slot_of e ca i) =? 0) eqn:Hs; simpl;
    [| discriminate].
  intros H. inversion H; subst.
  apply Z.leb_le in He. apply Z.eqb_eq in Hs. auto.
Qed.

Lemma setProof_run c proof h st :
  isOwner c st = true -> proof_epoch proof <= latestEpoch st ->
  sload (validators st) (proof_slot proof) = 0 ->
  setProof c proof h st = Ok (tt, set_validators (<[proof_slot proof := h]> (validators st)) st).
Proof.
  unfold setProof, proof_epoch, proof_slot.
  destruct (getProofComponents proof) as [[e ca] i].
  intros Ho He Hs. evm_unfold. rewrite Ho. simpl.
  apply Z.leb_le in He. rewrite He. simpl. rewrite Hs. reflexivity.
Qed.

Lemma setProof_taken c proof h st :
  isOwner c st = true -> proof_epoch proof <= latestEpoch st ->
  sload (validators st) (proof_slot proof) <> 0 ->
  setProof c proof h st = Revert AlreadyRegistered.
Proof.
  unfold setProof, proof_epoch, proof_slot.
  destruct (getProofComponents proof) as [[e ca] i].
  intros Ho He Hs. evm_unfold. rewrite Ho. simpl.
  apply Z.leb_le in He. rewrite He. simpl.
  apply Z.eqb_neq in Hs. rewrite Hs. reflexivity.
Qed.

(** One round of [clearProofByHashes] on a non-zero, recorded hash. *)
Lemma clearProofByHashes_cons c proof h hs st :
  clearProofByHashes c proof (h :: hs) st =
  if negb (h =? 0) then
    if mload_bool (validatedProofs st) (h, proof, c) then
      clearProofByHashes c proof hs
        (set_validatedProofs (<[(h, proof, c) := false]> (validatedProofs st)) st)
    else Revert NotPreviouslyValidated
  else Revert InvalidFingerprint.
Proof.
  evm_unfold. destruct (h =? 0); simpl; [reflexivity |].
  destruct (mload_bool (validatedProofs st) (h, proof, c)); reflexivity.
Qed.

Lemma clearProofByHashes_ok_iff c proof hs st :
  (exists st', clearProofByHashes c proof hs st = Ok (tt, st')) <->
  NoDup hs /\
  Forall (fun h => h <> 0 /\ mload_bool (validatedProofs st) (h, proof, c) = true) hs.
Proof.
  revert st. induction hs as [| h hs IH]; intros st.
  - simpl. split; [intros _; split; constructor | intros _; eexists; reflexivity].
  - rewrite clearProofByHashes_cons.
    destruct (h =? 0) eqn:Hz; simpl.
    + apply Z.eqb_eq in Hz. split; [intros [? Hc]; discriminate |].
      intros [_ Hf]. inversion Hf as [| ? ? [Hh _] _]. contradiction.
    + apply Z.eqb_neq in Hz.
      destruct (mload_bool (validatedProofs st) (h, proof, c)) eqn:Hm.
      2:{ split; [intros [? Hc]; discriminate |].
          intros [_ Hf]. inversion Hf as [| ? ? [_ Hh] _]. congruence. }
      rewrite IH. simpl.
      assert (Hl : forall x, x <> h ->
        mload_bool (<[(h, proof, c) := false]> (validatedProofs st)) (x, proof, c) =
        mload_bool (validatedProofs st) (x, proof, c)).
      { intros x Hx. unfold mload_bool. rewrite lookup_insert_ne; [reflexivity |].
        intros Heq. inversion Heq. congruence. }
      rewrite NoDup_cons, Forall_cons, !Forall_forall.
      split.
      * intros [Hnd Hall]. assert (Hnin : h ∉ hs).
        { intros Hin. destruct (Hall h Hin) as [_ Hf].
          unfold mload_bool in Hf. rewrite lookup_insert_eq in Hf. discriminate. }
        split; [split; assumption |]. split; [split; assumption |].
        intros x Hx. destruct (Hall x Hx) as [Hx0 Hxm]. split; [exact Hx0 |].
        rewrite <- Hl; [exact Hxm |]. intros ->. contradiction.
      * intros [[Hnin Hnd] [_ Hall]]. split; [exact Hnd |].
        intros x Hx. destruct (Hall x Hx) as [Hx0 Hxm]. split; [exact Hx0 |].
        rewrite Hl; [exact Hxm |]. intros ->. contradiction.
Qed.

Section DispatchFacts.

Variable keccak256 : list Z -> Z.
Variable staticcall : Z -> State -> list Z -> Z -> list Z -> option ProofOutputs.

Lemma recordProofOutputs_run msg_sender proof outs st :
  recordProofOutputs keccak256 msg_sender proof outs st =
  Ok (tt, set_validatedProofs (record_map keccak256 msg_sender proof outs (validatedProofs st)) st).
Proof.
  revert st. induction outs as [| o outs IH]; intros st; evm_unfold.
  - rewrite set_validatedProofs_same. reflexivity.
  - rewrite IH. simpl. rewrite set_validatedProofs_twice. reflexivity.
Qed.

Lemma callValidator_ok a sender d st outs st' :
  callValidator staticcall a sender d st = Ok (outs, st') ->
  st' = st /\ staticcall a st d sender (commonReferenceString st) = Some outs.
Proof.
  unfold callValidator. evm_unfold.
  destruct (staticcall a st d sender (commonReferenceString st)); simpl;
  intros H; inversion H; subst; auto.
Qed.

(** A successful [validateProof] in steps: the lookup leaves the state as
    it is, the validator sees the state of the transaction's start, and the
    only writes are the ledger records made after the call returned. *)
Lemma validateProof_ok msg_sender proof sender d st outs st' :
  validateProof keccak256 staticcall msg_sender proof sender d st = Ok (outs, st') ->
  exists a,
    getValidatorAddress proof st = Ok (a, st) /\
    staticcall a st d sender (commonReferenceString st) = Some outs /\
    st' = (if Z.land (Z.shiftr proof 8) 255 =? BALANCED
           then set_validatedProofs
                  (record_map keccak256 msg_sender proof outs (validatedProofs st)) st
           else st).
Proof.
  unfold validateProof, bindE at 1.
  destruct (getValidatorAddress proof st) as [[a st1] | e] eqn:Hg; [| discriminate].
  pose proof (getValidatorAddress_ok _ _ _ _ Hg) as [-> _].
  unfold bindE at 1.
  destruct (callValidator staticcall a sender d st) as [[o st2] | e] eqn:Hc; [| discriminate].
  pose proof (callValidator_ok _ _ _ _ _ _ Hc) as [-> Hs].
  intros H. exists a. split; [reflexivity |].
  destruct (Z.land (Z.shiftr proof 8) 255 =? BALANCED).
  - unfold bindE in H. rewrite recordProofOutputs_run in H. evm_unfold.
    inversion H; subst. auto.
  - evm_unfold. inversion H; subst. auto.
Qed.

Lemma record_map_notin msg_sender proof outs m k :
  (forall o, In o outs -> k <> (keccak256 o, proof, msg_sender)) ->
  record_map keccak256 msg_sender proof outs m !! k = m !! k.
Proof.
  revert m. induction outs as [| o outs IH]; intros m Hk; simpl; [reflexivity |].
  rewrite IH by (intros o' Ho'; apply Hk; right; exact Ho').
  apply lookup_insert_ne. intros Heq. apply (Hk o); [left; reflexivity | symmetry; exact Heq].
Qed.

Lemma record_map_true msg_sender proof outs m k :
  m !! k = Some true -> record_map keccak256 msg_sender proof outs m !! k = Some true.
Proof.
  revert m. induction outs as [| o outs IH]; intros m Hk; simpl; [exact Hk |].
  apply IH. destruct (decide ((keccak256 o, proof, msg_sender) = k)) as [<- | Hne].
  - apply lookup_insert_eq.
  - rewrite lookup_insert_ne by exact Hne. exact Hk.
Qed.

Lemma record_map_in msg_sender proof outs m o :
  In o outs ->
  record_map keccak256 msg_sender proof outs m !! (keccak256 o, proof, msg_sender) = Some true.
Proof.
  revert m. induction outs as [| o' outs IH]; intros m Hin; simpl; [contradiction |].
  destruct Hin as [-> | Hin].
  - apply record_map_true. apply lookup_insert_eq.
  - apply IH. exact Hin.
Qed.

End DispatchFacts.

(** ** The claims *)

Section ValidationClaims.

Variable keccak256 : list Z -> Z.
Variable staticcall : Z -> State -> list Z -> Z -> list Z -> option ProofOutputs.

(** C1 (atomicity).  A [validateProof] or [clearProofByHashes] transaction
    that reverts, whatever the reason, leaves the whole state as it was; a
    successful [validateProof] writes nothing before the validator returns:
    the lookup does not change the state, the validator is called on the
    state the transaction started from, and the only change afterwards is
    to the ledger. *)
Theorem validate_clear_atomic :
  (forall msg_sender proof sender d st e,
     validateProof keccak256 staticcall msg_sender proof sender d st = Revert e ->
     exec keccak256 staticcall (TxValidateProof msg_sender proof sender d) st = st) /\
  (forall msg_sender proof hs st e,
     clearProofByHashes msg_sender proof hs st = Revert e ->
     exec keccak256 staticcall (TxClearProofByHashes msg_sender proof hs) st = st) /\
  (forall msg_sender proof sender d st outs st',
     validateProof keccak256 staticcall msg_sender proof sender d st = Ok (outs, st') ->
     exists a,
       getValidatorAddress proof st = Ok (a, st) /\
       staticcall a st d sender (commonReferenceString st) = Some outs /\
       st' = set_validatedProofs (validatedProofs st') st).
Proof.
  split; [| split].
  - intros msg_sender proof sender d st e H.
    unfold exec, commit, run_tx, bindE. rewrite H. reflexivity.
  - intros msg_sender proof hs st e H.
    unfold exec, commit, run_tx. rewrite H. reflexivity.
  - intros msg_sender proof sender d st outs st' H.
    destruct (validateProof_ok _ _ _ _ _ _ _ _ _ H) as (a & Hg & Hs & Hst).
    exists a. split; [exact Hg | split; [exact Hs |]].
    destruct (Z.land (Z.shiftr proof 8) 255 =? BALANCED); subst;
      [reflexivity | destruct st; reflexivity].
Qed.

(** C9.  On an identifier whose category is not BALANCED, a successful
    [validateProof] writes no ledger record: the state, ledger included,
    is left as it was. *)
Theorem validateProof_non_balanced_no_record msg_sender proof sender d st outs st' :
  Z.land (Z.shiftr proof 8) 255 <> BALANCED ->
  validateProof keccak256 staticcall msg_sender proof sender d st = Ok (outs, st') ->
  validatedProofs st' = validatedProofs st /\ st' = st.
Proof.
  intros Hcat H.
  destruct (validateProof_ok _ _ _ _ _ _ _ _ _ H) as (a & _ & _ & Hst).
  apply Z.eqb_neq in Hcat. rewrite Hcat in Hst. subst. auto.
Qed.

(** C5 (as amended).  A successful [validateProof] on a BALANCED identifier
    records each output's hash under the key (hash, identifier, caller),
    the caller being [msg.sender] of [validateProof] and not its [_sender]
    argument; no other ledger entry and nothing else changes. *)
Theorem validateProof_balanced_records msg_sender proof sender d st outs st' :
  Z.land (Z.shiftr proof 8) 255 = BALANCED ->
  validateProof keccak256 staticcall msg_sender proof sender d st = Ok (outs, st') ->
  (forall o, In o outs ->
     mload_bool (validatedProofs st') (keccak256 o, proof, msg_sender) = true) /\
  (forall k, (forall o, In o outs -> k <> (keccak256 o, proof, msg_sender)) ->
     validatedProofs st' !! k = validatedProofs st !! k) /\
  st' = set_validatedProofs (validatedProofs st') st.
Proof.
  intros Hcat H.
  destruct (validateProof_ok _ _ _ _ _ _ _ _ _ H) as (a & _ & _ & Hst).
  rewrite Hcat, Z.eqb_refl in Hst. subst st'. simpl.
  split; [| split].
  - intros o Ho. unfold mload_bool. rewrite record_map_in by exact Ho. reflexivity.
  - intros k Hk. apply record_map_notin. exact Hk.
  - reflexivity.
Qed.

(** C4 (as amended).  Round trip: a caller [c] validates a BALANCED proof
    whose validator returns two outputs with distinct, non-zero hashes
    [fp1] and [fp2]; [validateProofByHash] then answers true for both
    under [c]; [c]'s [clearProofByHashes] of [[fp1]] succeeds, after which
    [fp1] answers false and [fp2] still true. *)
Theorem validate_byhash_clear_roundtrip c proof sender d st o1 o2 st' :
  Z.land (Z.shiftr proof 8) 255 = BALANCED ->
  validateProof keccak256 staticcall c proof sender d st = Ok ([o1; o2], st') ->
  keccak256 o1 <> keccak256 o2 ->
  keccak256 o1 <> 0 ->
  validateProofByHash proof (keccak256 o1) c st' = Ok (true, st') /\
  validateProofByHash proof (keccak256 o2) c st' = Ok (true, st') /\
  exists st'',
    clearProofByHashes c proof [keccak256 o1] st' = Ok (tt, st'') /\
    validateProofByHash proof (keccak256 o1) c st'' = Ok (false, st'') /\
    validateProofByHash proof (keccak256 o2) c st'' = Ok (true, st'').
Proof.
  intros Hcat H Hne Hnz.
  destruct (validateProof_ok _ _ _ _ _ _ _ _ _ H) as (a & Hg & _ & Hst).
  destruct (getValidatorAddress_ok _ _ _ _ Hg) as (_ & _ & _ & Hdis).
  rewrite Hcat, Z.eqb_refl in Hst. subst st'.
  set (m := record_map keccak256 c proof [o1; o2] (validatedProofs st)).
  assert (H1 : m !! (keccak256 o1, proof, c) = Some true)
    by (apply record_map_in; left; reflexivity).
  assert (H2 : m !! (keccak256 o2, proof, c) = Some true)
    by (apply record_map_in; right; left; reflexivity).
  unfold validateProofByHash. evm_unfold.
  unfold mload_bool. rewrite Hdis, H1, H2. simpl.
  split; [reflexivity | split; [reflexivity |]].
  apply Z.eqb_neq in Hnz. rewrite Hnz. simpl.
  unfold mload_bool. simpl. rewrite H1. simpl.
  eexists. split; [reflexivity |].
  evm_unfold. unfold mload_bool. rewrite Hdis. simpl.
  rewrite lookup_insert_eq.
  rewrite lookup_insert_ne by (intros Heq; inversion Heq; contradiction).
  rewrite H2. split; reflexivity.
Qed.

End ValidationClaims.

(** C3 (as amended).  Registration with a non-zero handle is write-once:
    after [setProof c proof h1] succeeds with [h1 <> 0], the slot of
    [proof] holds [h1] and a second [setProof c proof h2] reverts with
    [AlreadyRegistered], leaving the state (and so the binding [h1]) as it
    is; more generally no transaction changes a non-zero [validators]
    slot. *)
Theorem setProof_write_once :
  (forall c proof h1 h2 st st1,
     0 <= proof < 16777216 -> h1 <> 0 ->
     setProof c proof h1 st = Ok (tt, st1) ->
     sload (validators st1) proof = h1 /\
     setProof c proof h2 st1 = Revert AlreadyRegistered /\
     commit (setProof c proof h2) st1 = st1) /\
  (forall keccak256 staticcall tx st k,
     sload (validators st) k <> 0 ->
     sload (validators (exec keccak256 staticcall tx st)) k = sload (validators st) k).
Proof.
  split.
  - intros c proof h1 h2 st st1 Hp Hh H.
    destruct (setProof_ok _ _ _ _ _ H) as (Ho & He & _ & ->).
    assert (Hs : sload (validators (set_validators (<[proof_slot proof := h1]> (validators st)) st))
                   (proof_slot proof) = h1)
      by (unfold sload; simpl; rewrite lookup_insert_eq; reflexivity).
    split; [unfold sload; simpl; rewrite proof_slot_id, lookup_insert_eq by exact Hp;
            reflexivity |].
    assert (Ht : setProof c proof h2
                   (set_validators (<[proof_slot proof := h1]> (validators st)) st) =
                 Revert AlreadyRegistered)
      by (apply setProof_taken; [exact Ho | exact He | rewrite Hs; exact Hh]).
    split; [exact Ht |]. unfold commit. rewrite Ht. reflexivity.
  - intros keccak256 staticcall tx st k Hk. unfold exec.
    apply (commit_preserves (fun st' => sload (validators st') k = sload (validators st) k));
      [reflexivity |].
    intros [] st' H. destruct tx as [from proof sender d | from proof hs | from crs
                                     | from proof | from proof a | from]; simpl in H.
    + unfold bindE in H.
      destruct (validateProof keccak256 staticcall from proof sender d st)
        as [[o s1] | e] eqn:E; [| discriminate].
      unfold ret in H. inversion H; subst s1.
      destruct (validateProof_ok _ _ _ _ _ _ _ _ _ E) as (_ & _ & _ & Hst).
      destruct (Z.land (Z.shiftr proof 8) 255 =? BALANCED); subst; reflexivity.
    + apply clearProofByHashes_validators in H. rewrite H. reflexivity.
    + unfold setCommonReferenceString in H. evm_unfold.
      destruct (isOwner from st); simpl in H; inversion H; reflexivity.
    + unfold invalidateProof in H. destruct (getProofComponents proof) as [[e ca] i].
      evm_unfold. destruct (isOwner from st); simpl in H; [| discriminate].
      destruct (sload (validators st) (validators_slot_of e ca i) =? 0); simpl in H;
        inversion H; reflexivity.
    + destruct (setProof_ok _ _ _ _ _ H) as (_ & _ & Hs & ->).
      unfold sload at 1. simpl.
      destruct (decide (proof_slot proof = k)) as [<- | Hne]; [contradiction |].
      rewrite lookup_insert_ne by exact Hne. reflexivity.
    + unfold incrementLatestEpoch, SafeMath8_add in H. evm_unfold.
      destruct (isOwner from st); simpl in H; [| discriminate].
      destruct (latestEpoch st <=? (latestEpoch st + 1) mod 256); simpl in H;
        inversion H; reflexivity.
Qed.

(** C6 (as amended).  [clearProofByHashes c proof hs] succeeds exactly when
    the hashes are pairwise distinct, each non-zero and each recorded true
    under (hash, proof, c); a failing call leaves the whole state as it
    was; a successful one sets every listed record to false and changes
    nothing else; and clearing the same hash again right after fails with
    [NotPreviouslyValidated]. *)
Theorem clearProofByHashes_spec c proof hs st :
  ((exists st', clearProofByHashes c proof hs st = Ok (tt, st')) <->
     NoDup hs /\
     Forall (fun h => h <> 0 /\ mload_bool (validatedProofs st) (h, proof, c) = true) hs) /\
  (forall e, clearProofByHashes c proof hs st = Revert e ->
     commit (clearProofByHashes c proof hs) st = st) /\
  (forall st', clearProofByHashes c proof hs st = Ok (tt, st') ->
     (forall h, In h hs -> mload_bool (validatedProofs st') (h, proof, c) = false) /\
     (forall k, (forall h, In h hs -> k <> (h, proof, c)) ->
        validatedProofs st' !! k = validatedProofs st !! k) /\
     st' = set_validatedProofs (validatedProofs st') st) /\
  (forall h st', clearProofByHashes c proof [h] st = Ok (tt, st') ->
     clearProofByHashes c proof [h] st' = Revert NotPreviouslyValidated).
Proof.
  split; [apply clearProofByHashes_ok_iff |].
  split; [intros e H; unfold commit; rewrite H; reflexivity |].
  split.
  - intros st' H. pose proof (clearProofByHashes_run _ _ _ _ _ H) as Hm.
    split; [| split].
    + intros h Hh. unfold mload_bool. rewrite Hm, clear_map_in by exact Hh. reflexivity.
    + intros k Hk. rewrite Hm. apply clear_map_notin. exact Hk.
    + exact (clearProofByHashes_validators _ _ _ _ _ H).
  - intros h st' H. pose proof (clearProofByHashes_run _ _ _ _ _ H) as Hm.
    rewrite clearProofByHashes_cons.
    destruct (h =? 0) eqn:Hz; simpl.
    + rewrite clearProofByHashes_cons, Hz in H. discriminate.
    + unfold mload_bool. rewrite Hm. simpl. rewrite lookup_insert_eq. reflexivity.
Qed.

(** C7.  [setProof] succeeds only when the identifier's epoch is at most
    [latestEpoch]; above it the call reverts, with [EpochExceeded] for the
    owner (a non-owner is stopped by [Unauthorized] first), and no binding
    is stored: the state is left as it was. *)
Theorem setProof_epoch_gate c proof h st :
  (forall st', setProof c proof h st = Ok (tt, st') -> proof_epoch proof <= latestEpoch st) /\
  (latestEpoch st < proof_epoch proof ->
     setProof c proof h st = Revert (if isOwner c st then EpochExceeded else Unauthorized) /\
     commit (setProof c proof h) st = st).
Proof.
  split.
  - intros st' H. apply setProof_ok in H. tauto.
  - intros Hlt.
    assert (Hr : setProof c proof h st =
                 Revert (if isOwner c st then EpochExceeded else Unauthorized)).
    { unfold setProof. unfold proof_epoch in Hlt.
      destruct (getProofComponents proof) as [[e ca] i].
      evm_unfold. destruct (isOwner c st); simpl; [| reflexivity].
      apply Z.leb_gt in Hlt. rewrite Hlt. reflexivity. }
    split; [exact Hr |]. unfold commit. rewrite Hr. reflexivity.
Qed.

(** C8 (as amended).  [incrementLatestEpoch] reverts with [Unauthorized]
    for a non-owner; for the owner it adds one to [latestEpoch] when
    [latestEpoch < 255], and at 255, the largest [uint8], it reverts with
    the SafeMath8 overflow error. *)
Theorem incrementLatestEpoch_spec c st :
  0 <= latestEpoch st <= 255 ->
  incrementLatestEpoch c st =
  if isOwner c st then
    if latestEpoch st <? 255 then Ok (tt, set_latestEpoch (latestEpoch st + 1) st)
    else Revert Overflow
  else Revert Unauthorized.
Proof.
  intros Hr. unfold incrementLatestEpoch, SafeMath8_add. evm_unfold.
  destruct (isOwner c st); simpl; [| reflexivity].
  destruct (Z.ltb_spec (latestEpoch st) 255) as [Hlt | Hge].
  - rewrite (Z.mod_small (latestEpoch st + 1)) by lia.
    replace (latestEpoch st <=? latestEpoch st + 1) with true by (symmetry; apply Z.leb_le; lia).
    reflexivity.
  - replace (latestEpoch st) with 255 by lia. reflexivity.
Qed.

(** C10.  [setProof] does not reject the zero handle: for a free 24-bit
    identifier whose epoch is at most [latestEpoch], the owner's
    [setProof proof 0] succeeds, yet [getValidatorAddress proof] and every
    [validateProof] on it still revert with [UnknownValidator], and a later
    [setProof proof h] by the owner succeeds. *)
Theorem setProof_zero_handle c proof st :
  0 <= proof < 16777216 ->
  c = owner st ->
  proof_epoch proof <= latestEpoch st ->
  sload (validators st) proof = 0 ->
  exists st1,
    setProof c proof 0 st = Ok (tt, st1) /\
    getValidatorAddress proof st1 = Revert UnknownValidator /\
    (forall keccak256 staticcall msg_sender sender d,
       validateProof keccak256 staticcall msg_sender proof sender d st1 =
       Revert UnknownValidator) /\
    (forall h, exists st2, setProof c proof h st1 = Ok (tt, st2)).
Proof.
  intros Hp Hc He Hs.
  assert (Ho : isOwner c st = true) by (subst c; apply Z.eqb_refl).
  rewrite <- (proof_slot_id proof Hp) in Hs.
  eexists. split; [apply setProof_run; assumption |].
  assert (Hz : sload (validators (set_validators (<[proof_slot proof := 0]> (validators st)) st))
                 (proof_slot proof) = 0)
    by (unfold sload; simpl; rewrite lookup_insert_eq; reflexivity).
  split; [| split].
  - apply getValidatorAddress_unknown.
    unfold sload; simpl; rewrite proof_slot_id, lookup_insert_eq by exact Hp. reflexivity.
  - intros keccak256 staticcall msg_sender sender d. unfold validateProof, bindE at 1.
    rewrite getValidatorAddress_unknown; [reflexivity |].
    unfold sload; simpl; rewrite proof_slot_id, lookup_insert_eq by exact Hp. reflexivity.
  - intros h. eexists. apply setProof_run; [exact Ho | exact He | exact Hz].
Qed.

(** ** Runs on concrete transactions *)

(** C2: the owner's [invalidateProof 0x010101] succeeds, but it sets byte 1
    of the packed slot 0x808 of [disabledValidators], while
    [getValidatorAddress] and [validateProofByHash] read the raw slot
    0x010101, which stays zero: the validator is still returned, a
    [validateProof] still succeeds and [validateProofByHash] still
    answers. *)
Lemma invalidateProof_misses_disabled_slot :
  invalidateProof 1 65793 st_registered = Ok (tt, st_invalidated) /\
  sload (disabledValidators st_invalidated) 2056 = 256 /\
  sload (disabledValidators st_invalidated) 65793 = 0 /\
  getValidatorAddress 65793 st_invalidated = Ok (170, st_invalidated) /\
  validateProof sample_hash sample_validator 1 65793 7 [] st_invalidated =
    Ok ([[1]; [2]],
        commit (validateProof sample_hash sample_validator 1 65793 7 []) st_invalidated) /\
  validateProofByHash 65793 (sample_hash [1]) 1 st_invalidated = Ok (false, st_invalidated).
Proof. vm_compute. repeat split. Qed.

(** C3: a binding to the zero address does not make the registration
    final: [setProof 0x010101 171] then succeeds and the slot changes. *)
Lemma setProof_zero_then_overwrite :
  setProof 1 65793 0 (deploy 1) = Ok (tt, st_zero_handle) /\
  setProof 1 65793 171 st_zero_handle = Ok (tt, commit (setProof 1 65793 171) st_zero_handle) /\
  sload (validators (commit (setProof 1 65793 171) st_zero_handle)) 65793 = 171.
Proof. vm_compute. repeat split. Qed.

(** C4: the ledger is keyed by the caller of [validateProof] (1), not by
    its [_sender] argument (7): asked under 7, [validateProofByHash]
    answers false. *)
Lemma roundtrip_sender_argument_fails :
  validateProof sample_hash sample_validator 1 65793 7 [] st_registered =
    Ok ([[1]; [2]], st_validated) /\
  validateProofByHash 65793 (sample_hash [1]) 7 st_validated = Ok (false, st_validated).
Proof. vm_compute. repeat split. Qed.

(** C5: after the same call the record under (hash, 0x010101, 7) is unset,
    the one under the caller 1 is set. *)
Lemma record_keyed_by_caller_not_sender :
  validateProof sample_hash sample_validator 1 65793 7 [] st_registered =
    Ok ([[1]; [2]], st_validated) /\
  mload_bool (validatedProofs st_validated) (sample_hash [1], 65793, 7) = false /\
  mload_bool (validatedProofs st_validated) (sample_hash [1], 65793, 1) = true.
Proof. vm_compute. repeat split. Qed.

(** C6: a hash listed twice is non-zero and recorded, yet the call
    reverts: the second round finds the record already cleared. *)
Lemma clear_duplicate_hash_fails :
  sample_hash [1] <> 0 /\
  mload_bool (validatedProofs st_validated) (sample_hash [1], 65793, 1) = true /\
  clearProofByHashes 1 65793 [sample_hash [1]; sample_hash [1]] st_validated =
    Revert NotPreviouslyValidated.
Proof. vm_compute. split; [discriminate | split; reflexivity]. Qed.

(** C8: after 254 increments the epoch is 255, and the owner's next
    [incrementLatestEpoch] reverts. *)
Lemma incrementLatestEpoch_at_255_fails :
  latestEpoch st_epoch_max = 255 /\ isOwner 1 st_epoch_max = true /\
  incrementLatestEpoch 1 st_epoch_max = Revert Overflow.
Proof. vm_compute. repeat split. Qed.

(** ** Witnesses: the theorems applied to concrete runs *)

Lemma validate_byhash_clear_roundtrip_witness :
  validateProofByHash 65793 (sample_hash [1]) 1 st_validated = Ok (true, st_validated) /\
  validateProofByHash 65793 (sample_hash [2]) 1 st_validated = Ok (true, st_validated) /\
  exists st'',
    clearProofByHashes 1 65793 [sample_hash [1]] st_validated = Ok (tt, st'') /\
    validateProofByHash 65793 (sample_hash [1]) 1 st'' = Ok (false, st'') /\
    validateProofByHash 65793 (sample_hash [2]) 1 st'' = Ok (true, st'').
Proof.
  apply (validate_byhash_clear_roundtrip sample_hash sample_validator 1 65793 7 []
           st_registered [1] [2] st_validated).
  - vm_compute. reflexivity.
  - vm_compute. reflexivity.
  - vm_compute. discriminate.
  - vm_compute. discriminate.
Defined.

Lemma validateProof_balanced_records_witness :
  mload_bool (validatedProofs st_validated) (sample_hash [2], 65793, 1) = true /\
  st_validated = set_validatedProofs (validatedProofs st_validated) st_registered.
Proof.
  destruct (validateProof_balanced_records sample_hash sample_validator 1 65793 7 []
              st_registered [[1]; [2]] st_validated) as (H1 & _ & H3).
  - vm_compute. reflexivity.
  - vm_compute. reflexivity.
  - split; [apply H1; right; left; reflexivity | exact H3].
Defined.

Lemma validateProof_non_balanced_no_record_witness :
  validateProof sample_hash sample_validator 1 66049 7 [] st_nonbalanced =
    Ok ([[1]; [2]], st_nonbalanced) /\
  validatedProofs st_nonbalanced = validatedProofs st_nonbalanced /\
  st_nonbalanced = st_nonbalanced.
Proof.
  assert (H : validateProof sample_hash sample_validator 1 66049 7 [] st_nonbalanced =
                Ok ([[1]; [2]], st_nonbalanced)) by (vm_compute; reflexivity).
  split; [exact H |].
  apply (validateProof_non_balanced_no_record sample_hash sample_validator 1 66049 7 []
           st_nonbalanced [[1]; [2]] st_nonbalanced); [vm_compute; discriminate | exact H].
Defined.

Lemma incrementLatestEpoch_spec_witness :
  incrementLatestEpoch 1 (deploy 1) = Ok (tt, set_latestEpoch 2 (deploy 1)).
Proof.
  rewrite (incrementLatestEpoch_spec 1 (deploy 1)).
  - vm_compute. reflexivity.
  - simpl. lia.
Defined.

Lemma setProof_zero_handle_witness :
  exists st1,
    setProof 1 65793 0 (deploy 1) = Ok (tt, st1) /\
    getValidatorAddress 65793 st1 = Revert UnknownValidator /\
    exists st2, setProof 1 65793 170 st1 = Ok (tt, st2).
Proof.
  destruct (setProof_zero_handle 1 65793 (deploy 1)) as (st1 & H1 & H2 & _ & H4).
  - lia.
  - reflexivity.
  - vm_compute. discriminate.
  - reflexivity.
  - exists st1. split; [exact H1 | split; [exact H2 | exact (H4 170)]].
Defined.

(** ** Further properties of ACE.sol *)

(** The byte at offset [8 * a] of a word after a packed store of [true]
    at offset [8 * a']: 1 at the written byte, unchanged elsewhere. *)
Lemma byte_store_packed_bool w a a' :
  0 <= a < 32 -> 0 <= a' < 32 ->
  Z.land (Z.shiftr (store_packed_bool w (8 * a') true) (8 * a)) 255 =
  if a =? a' then 1 else Z.land (Z.shiftr w (8 * a)) 255.
Proof.
  intros Ha Ha'. unfold store_packed_bool. simpl Z.b2z.
  change 255 with (Z.ones 8). change 1 with (Z.ones 1).
  destruct (Z.eqb_spec a a') as [-> | Hne];
    apply Z.bits_inj'; intros n Hn;
    rewrite ?Z.land_spec, ?Z.shiftr_spec, ?Z.lor_spec, ?Z.land_spec, ?Z.lnot_spec by lia;
    rewrite ?(Z.testbit_ones_nonneg 8 n) by lia;
    destruct (Z.ltb_spec n 8) as [Hn8 | Hn8];
    rewrite ?andb_false_r, ?andb_true_r; try reflexivity.
  - rewrite !Z.shiftl_spec by lia. replace (n + 8 * a' - 8 * a') with n by lia.
    rewrite !Z.testbit_ones_nonneg by lia.
    replace (n <? 8) with true by (symmetry; apply Z.ltb_lt; lia).
    rewrite andb_false_r. reflexivity.
  - rewrite Z.testbit_ones_nonneg by lia. symmetry. apply Z.ltb_ge. lia.
  - rewrite !Z.shiftl_spec by lia.
    destruct (Z.ltb_spec (n + 8 * a - 8 * a') 0) as [Hneg | Hpos].
    + rewrite !(fun x => Z.testbit_neg_r x (n + 8 * a - 8 * a') Hneg). rewrite andb_true_r, orb_false_r. reflexivity.
    + rewrite !Z.testbit_ones_nonneg by lia.
      replace (n + 8 * a - 8 * a' <? 8) with false by (symmetry; apply Z.ltb_ge; lia).
      replace (n + 8 * a - 8 * a' <? 1) with false by (symmetry; apply Z.ltb_ge; lia).
      rewrite andb_true_r, orb_false_r. reflexivity.
Qed.

Lemma store_packed_bool_idem w sh :
  0 <= sh -> store_packed_bool (store_packed_bool w sh true) sh true = store_packed_bool w sh true.
Proof.
  intros Hsh. unfold store_packed_bool. apply Z.bits_inj'. intros n Hn.
  rewrite !Z.lor_spec, !Z.land_spec, !Z.lor_spec, !Z.land_spec, !Z.lnot_spec by lia.
  destruct (Z.testbit w n), (Z.testbit (Z.shiftl 255 sh) n), (Z.testbit (Z.shiftl (Z.b2z true) sh) n);
    reflexivity.
Qed.

Lemma store_packed_bool_nonzero w sh :
  0 <= sh -> store_packed_bool w sh true <> 0.
Proof.
  intros Hsh H0. assert (Hb : Z.testbit (store_packed_bool w sh true) sh = true).
  { unfold store_packed_bool. rewrite Z.lor_spec, Z.shiftl_spec by lia.
    rewrite Z.sub_diag. apply orb_true_r. }
  rewrite H0, Z.testbit_0_l in Hb. discriminate.
Qed.

Lemma invalidateProof_ok c proof st st' :
  invalidateProof c proof st = Ok (tt, st') ->
  isOwner c st = true /\ sload (validators st) (proof_slot proof) <> 0 /\
  st' = set_disabledValidators
          (<[proof_disabled_slot proof :=
               store_packed_bool (sload (disabledValidators st) (proof_disabled_slot proof))
                 (proof_disabled_shift proof) true]> (disabledValidators st)) st.
Proof.
  unfold invalidateProof, proof_slot, proof_disabled_slot, proof_disabled_shift.
  destruct (getProofComponents proof) as [[e ca] i].
  evm_unfold. destruct (isOwner c st); simpl; [| discriminate].
  destruct (sload (validators st) (validators_slot_of e ca i) =? 0) eqn:Hs; simpl;
    [discriminate |].
  intros H. inversion H; subst. apply Z.eqb_neq in Hs. auto.
Qed.

Lemma invalidateProof_run c proof st :
  isOwner c st = true -> sload (validators st) (proof_slot proof) <> 0 ->
  invalidateProof c proof st =
  Ok (tt, set_disabledValidators
          (<[proof_disabled_slot proof :=
               store_packed_bool (sload (disabledValidators st) (proof_disabled_slot proof))
                 (proof_disabled_shift proof) true]> (disabledValidators st)) st).
Proof.
  unfold invalidateProof, proof_slot, proof_disabled_slot, proof_disabled_shift.
  destruct (getProofComponents proof) as [[e ca] i].
  intros Ho Hs. evm_unfold. rewrite Ho. simpl.
  apply Z.eqb_neq in Hs. rewrite Hs. reflexivity.
Qed.

Lemma setCommonReferenceString_ok c crs st st' :
  setCommonReferenceString c crs st = Ok (tt, st') ->
  isOwner c st = true /\ st' = set_commonReferenceString crs st.
Proof.
  unfold setCommonReferenceString. evm_unfold.
  destruct (isOwner c st); simpl; intros H; inversion H; auto.
Qed.

Lemma incrementLatestEpoch_ok c st st' :
  incrementLatestEpoch c st = Ok (tt, st') ->
  isOwner c st = true /\ latestEpoch st <= (latestEpoch st + 1) mod 256 /\
  st' = set_latestEpoch ((latestEpoch st + 1) mod 256) st.
Proof.
  unfold incrementLatestEpoch, SafeMath8_add. evm_unfold.
  destruct (isOwner c st); simpl; [| discriminate].
  destruct (latestEpoch st <=? (latestEpoch st + 1) mod 256) eqn:Hl; simpl; [| discriminate].
  intros H. inversion H; subst. apply Z.leb_le in Hl. auto.
Qed.

(** Every transaction either reverts (the state stays) or has exactly the
    effect of one function's success path. *)
Lemma exec_cases keccak256 staticcall tx st :
  exec keccak256 staticcall tx st = st \/
  (exists from proof sender d outs,
     tx = TxValidateProof from proof sender d /\
     exec keccak256 staticcall tx st =
       set_validatedProofs (record_map keccak256 from proof outs (validatedProofs st)) st) \/
  (exists from proof hs,
     tx = TxClearProofByHashes from proof hs /\
     exec keccak256 staticcall tx st =
       set_validatedProofs (clear_map from proof hs (validatedProofs st)) st) \/
  (exists from crs,
     tx = TxSetCommonReferenceString from crs /\ isOwner from st = true /\
     exec keccak256 staticcall tx st = set_commonReferenceString crs st) \/
  (exists from proof,
     tx = TxInvalidateProof from proof /\ isOwner from st = true /\
     exec keccak256 staticcall tx st =
       set_disabledValidators
         (<[proof_disabled_slot proof :=
              store_packed_bool (sload (disabledValidators st) (proof_disabled_slot proof))
                (proof_disabled_shift proof) true]> (disabledValidators st)) st) \/
  (exists from proof h,
     tx = TxSetProof from proof h /\ isOwner from st = true /\
     sload (validators st) (proof_slot proof) = 0 /\
     exec keccak256 staticcall tx st =
       set_validators (<[proof_slot proof := h]> (validators st)) st) \/
  (exists from,
     tx = TxIncrementLatestEpoch from /\ isOwner from st = true /\
     latestEpoch st <= (latestEpoch st + 1) mod 256 /\
     exec keccak256 staticcall tx st =
       set_latestEpoch ((latestEpoch st + 1) mod 256) st).
Proof.
  unfold exec, commit.
  destruct (run_tx keccak256 staticcall tx st) as [[[] st'] | e] eqn:E; [| left; reflexivity].
  right. destruct tx as [from proof sender d | from proof hs | from crs
                        | from proof | from proof a | from]; simpl in E.
  - unfold bindE in E.
    destruct (validateProof keccak256 staticcall from proof sender d st)
      as [[o s1] | e] eqn:V; [| discriminate].
    unfold ret in E. inversion E; subst s1.
    destruct (validateProof_ok _ _ _ _ _ _ _ _ _ V) as (_ & _ & _ & Hst).
    destruct (Z.land (Z.shiftr proof 8) 255 =? BALANCED); subst.
    + left. exists from, proof, sender, d, o. auto.
    + left. exists from, proof, sender, d, []. simpl. split; [reflexivity |].
      destruct st; reflexivity.
  - right; left. exists from, proof, hs. split; [reflexivity |].
    rewrite (clearProofByHashes_validators _ _ _ _ _ E) at 1.
    rewrite (clearProofByHashes_run _ _ _ _ _ E). reflexivity.
  - do 2 right; left. apply setCommonReferenceString_ok in E as [Ho ->].
    exists from, crs. auto.
  - do 3 right; left. apply invalidateProof_ok in E as (Ho & _ & ->).
    exists from, proof. auto.
  - do 4 right; left. apply setProof_ok in E as (Ho & _ & Hs & ->).
    exists from, proof, a. auto.
  - do 5 right. apply incrementLatestEpoch_ok in E as (Ho & Hl & ->).
    exists from. auto.
Qed.

(** Case split on the effect of one transaction. *)
Ltac exec_split k s t st :=
  destruct (exec_cases k s t st)
    as [-> | [(? & ? & ? & ? & ? & ? & ->) | [(? & ? & ? & ? & ->)
       | [(? & ? & ? & ? & ->) | [(? & ? & ? & ? & ->)
       | [(? & ? & ? & ? & ? & ? & ->) | (? & ? & ? & ? & ->)]]]]]].

Lemma getProofComponents_pack e ca i :
  0 <= e < 256 -> 0 <= ca < 256 -> 0 <= i < 256 ->
  getProofComponents (e * 65536 + ca * 256 + i) = (e, ca, i).
Proof.
  intros He Hc Hi. unfold getProofComponents.
  change 255 with (Z.ones 8). rewrite !Z.land_ones, !Z.shiftr_div_pow2 by lia.
  change (2 ^ 16) with 65536. change (2 ^ 8) with 256.
  rewrite <- (Z.div_unique (e * 65536 + ca * 256 + i) 65536 e (ca * 256 + i)) by lia.
  rewrite <- (Z.div_unique (e * 65536 + ca * 256 + i) 256 (e * 256 + ca) i) by lia.
  rewrite <- (Z.mod_unique (e * 256 + ca) 256 e ca) by lia.
  rewrite <- (Z.mod_unique (e * 65536 + ca * 256 + i) 256 (e * 256 + ca) i) by lia.
  rewrite Z.mod_small by lia. reflexivity.
Qed.

Lemma proof_disabled_shift_range proof :
  0 <= proof_disabled_shift proof /\
  proof_disabled_shift proof = 8 * (Z.land proof 255 mod 32) /\
  0 <= Z.land proof 255 mod 32 < 32.
Proof.
  unfold proof_disabled_shift, getProofComponents, disabled_shift_of. simpl.
  pose proof (Z.mod_pos_bound (Z.land proof 255) 32 ltac:(lia)). lia.
Qed.

Lemma set_disabledValidators_same st : set_disabledValidators (disabledValidators st) st = st.
Proof. destruct st; reflexivity. Qed.

(** The getter after one packed store of [true]: true at the written
    position, unchanged at any other (the positions' bytes compared by
    [id mod 32]). *)
Lemma getter_after_store st slot a e ca i :
  0 <= a < 32 ->
  disabledValidators_getter
    (set_disabledValidators
       (<[slot := store_packed_bool (sload (disabledValidators st) slot) (8 * a) true]>
          (disabledValidators st)) st) e ca i =
  if decide (slot = disabled_slot_of e ca i) then
    if i mod 32 =? a then true else disabledValidators_getter st e ca i
  else disabledValidators_getter st e ca i.
Proof.
  intros Ha. unfold disabledValidators_getter, disabled_shift_of, sload at 1. simpl.
  destruct (decide (slot = disabled_slot_of e ca i)) as [<- | Hne].
  - rewrite lookup_insert_eq. simpl.
    pose proof (Z.mod_pos_bound i 32 ltac:(lia)).
    rewrite byte_store_packed_bool by lia.
    destruct (i mod 32 =? a); reflexivity.
  - rewrite lookup_insert_ne by exact Hne. reflexivity.
Qed.

(** X1.  The common reference string is changed by exactly one kind of
    transaction: the owner's [setCommonReferenceString], which installs the
    given array; every other transaction, or a non-owner's call, leaves it
    (and so what [getCommonReferenceString] returns) as it was. *)
Theorem commonReferenceString_after_tx keccak256 staticcall tx st :
  getCommonReferenceString (exec keccak256 staticcall tx st) =
  Ok (match tx with
      | TxSetCommonReferenceString from crs =>
          if isOwner from st then crs else commonReferenceString st
      | _ => commonReferenceString st
      end, exec keccak256 staticcall tx st).
Proof.
  unfold getCommonReferenceString, bindE, get, ret. f_equal. f_equal.
  destruct tx as [from proof sender d | from proof hs | from crs | from proof
                 | from proof a | from].
  3:{ unfold exec, commit, run_tx, setCommonReferenceString. evm_unfold.
      destruct (isOwner from st); reflexivity. }
  all: match goal with |- context [exec _ _ ?t _] => exec_split keccak256 staticcall t st end;
         try discriminate; reflexivity.
Qed.

(** X2.  Registration round trip: when the owner binds a free 24-bit
    identifier of an admitted epoch to a non-zero address and the raw
    revocation word at that identifier is zero, [setProof] succeeds,
    [getValidatorAddress] then returns that address, and no other
    [validators] slot nor any other storage changes. *)
Theorem setProof_getValidatorAddress_roundtrip c proof h st :
  0 <= proof < 16777216 -> isOwner c st = true ->
  proof_epoch proof <= latestEpoch st -> sload (validators st) proof = 0 ->
  h <> 0 -> sload (disabledValidators st) proof = 0 ->
  exists st1,
    setProof c proof h st = Ok (tt, st1) /\
    getValidatorAddress proof st1 = Ok (h, st1) /\
    (forall k, k <> proof -> sload (validators st1) k = sload (validators st) k) /\
    st1 = set_validators (validators st1) st.
Proof.
  intros Hp Ho He Hs Hh Hd.
  rewrite <- (proof_slot_id proof Hp) in Hs.
  eexists. split; [apply setProof_run; assumption |].
  rewrite !(proof_slot_id proof Hp). split; [| split].
  - unfold getValidatorAddress. evm_unfold. rewrite Hd.
    unfold sload at 1. simpl. rewrite lookup_insert_eq. simpl.
    apply Z.eqb_neq in Hh. rewrite Hh. simpl.
    unfold sload. rewrite lookup_insert_eq. reflexivity.
  - intros k Hk. unfold sload. simpl.
    rewrite lookup_insert_ne by congruence. reflexivity.
  - reflexivity.
Qed.

(** X3.  A successful [invalidateProof] for epoch [e], category [ca] and
    id [i] (each below 256) makes the public getter
    [disabledValidators(e, ca, i)] return [true], leaves that getter
    unchanged for every other in-range position, and touches no storage but
    [disabledValidators]. *)
Theorem invalidateProof_sets_getter c e ca i st st' :
  0 <= e < 256 -> 0 <= ca < 256 -> 0 <= i < 256 ->
  invalidateProof c (e * 65536 + ca * 256 + i) st = Ok (tt, st') ->
  disabledValidators_getter st' e ca i = true /\
  (forall e' ca' i', 0 <= ca' < 256 -> 0 <= i' < 256 -> (e', ca', i') <> (e, ca, i) ->
     disabledValidators_getter st' e' ca' i' = disabledValidators_getter st e' ca' i') /\
  st' = set_disabledValidators (disabledValidators st') st.
Proof.
  intros He Hc Hi H.
  destruct (invalidateProof_ok _ _ _ _ H) as (_ & _ & ->).
  unfold proof_disabled_slot, proof_disabled_shift.
  rewrite getProofComponents_pack by assumption. unfold disabled_shift_of at 1 2.
  pose proof (Z.mod_pos_bound i 32 ltac:(lia)) as Hm.
  split; [| split].
  - rewrite getter_after_store by exact Hm.
    rewrite decide_True by reflexivity. rewrite Z.eqb_refl. reflexivity.
  - intros e' ca' i' Hc' Hi' Hne.
    rewrite getter_after_store by exact Hm.
    destruct (decide _) as [Hs | _]; [| reflexivity].
    unfold disabled_slot_of in Hs. rewrite !Z.shiftr_div_pow2 in Hs by lia.
    change (2 ^ 5) with 32 in Hs.
    pose proof (Z.div_mod i 32 ltac:(lia)). pose proof (Z.div_mod i' 32 ltac:(lia)).
    pose proof (Z.mod_pos_bound i' 32 ltac:(lia)).
    destruct (Z.eqb_spec (i' mod 32) (i mod 32)) as [Heq | _]; [| reflexivity].
    exfalso. apply Hne.
    assert (i / 32 < 8 /\ i' / 32 < 8 /\ 0 <= i / 32 /\ 0 <= i' / 32) by lia.
    assert (e' = e /\ ca' = ca /\ i' / 32 = i / 32) as (-> & -> & Hq) by lia.
    f_equal. lia.
  - reflexivity.
Qed.

(** X4.  [invalidateProof] is idempotent: once it has succeeded, the same
    call succeeds again and leaves the state as it is. *)
Theorem invalidateProof_idempotent c proof st st1 :
  invalidateProof c proof st = Ok (tt, st1) -> invalidateProof c proof st1 = Ok (tt, st1).
Proof.
  intros H. destruct (invalidateProof_ok _ _ _ _ H) as (Ho & Hr & ->).
  rewrite invalidateProof_run by (simpl; assumption).
  destruct (proof_disabled_shift_range proof) as (Hsh & _).
  simpl. unfold sload at 1. rewrite lookup_insert_eq. simpl.
  rewrite store_packed_bool_idem by exact Hsh. rewrite insert_insert_eq.
  destruct st; reflexivity.
Qed.

(** X5.  Revocation is permanent: once the public getter
    [disabledValidators(e, ca, i)] returns [true], it still does after any
    transaction. *)
Theorem disabledValidators_getter_persistent keccak256 staticcall tx st e ca i :
  disabledValidators_getter st e ca i = true ->
  disabledValidators_getter (exec keccak256 staticcall tx st) e ca i = true.
Proof.
  intros H. exec_split keccak256 staticcall tx st; try exact H.
  match goal with |- context [proof_disabled_shift ?p] =>
    destruct (proof_disabled_shift_range p) as (_ & -> & Ha) end.
  rewrite getter_after_store by exact Ha.
  destruct (decide _); [destruct (_ =? _) |]; first [reflexivity | exact H].
Qed.

(** X6.  The raw-offset read makes a revocation reach another identifier:
    after [invalidateProof proof] succeeds, the identifier equal to the
    packed slot it wrote, [proof_disabled_slot proof], if registered, is
    refused by [getValidatorAddress] and [validateProofByHash] alike. *)
Theorem invalidateProof_disables_alias c proof st st' proofHash sender :
  invalidateProof c proof st = Ok (tt, st') ->
  sload (validators st) (proof_disabled_slot proof) <> 0 ->
  getValidatorAddress (proof_disabled_slot proof) st' = Revert DisabledValidator /\
  validateProofByHash (proof_disabled_slot proof) proofHash sender st' = Revert DisabledValidator.
Proof.
  intros H Hr. destruct (invalidateProof_ok _ _ _ _ H) as (_ & _ & ->).
  destruct (proof_disabled_shift_range proof) as (Hsh & _).
  pose proof (store_packed_bool_nonzero
                (sload (disabledValidators st) (proof_disabled_slot proof))
                (proof_disabled_shift proof) Hsh) as Hnz.
  match goal with |- context [set_disabledValidators ?m st] =>
    assert (Hd : (sload m (proof_disabled_slot proof) =? 0) = false)
      by (unfold sload at 1; rewrite lookup_insert_eq; apply Z.eqb_neq; exact Hnz) end.
  apply Z.eqb_neq in Hr.
  unfold getValidatorAddress, validateProofByHash. evm_unfold.
  rewrite Hd, Hr. split; reflexivity.
Qed.

(** X7.  [latestEpoch] never decreases and never leaves the [uint8]
    range: from a state whose epoch is in [0, 255], any transaction leads
    to an epoch at least as large and still at most 255. *)
Theorem latestEpoch_monotone keccak256 staticcall tx st :
  0 <= latestEpoch st <= 255 ->
  latestEpoch st <= latestEpoch (exec keccak256 staticcall tx st) <= 255.
Proof.
  intros H. exec_split keccak256 staticcall tx st; simpl; try lia.
  pose proof (Z.mod_pos_bound (latestEpoch st + 1) 256 ltac:(lia)). lia.
Qed.

(** X8.  A transaction sent by anyone but the owner changes none of the
    owner-managed storage: [validators], [disabledValidators],
    [latestEpoch] and the common reference string stay as they were. *)
Theorem non_owner_tx_registry_unchanged keccak256 staticcall tx st :
  tx_sender tx <> owner st ->
  let st' := exec keccak256 staticcall tx st in
  validators st' = validators st /\ disabledValidators st' = disabledValidators st /\
  latestEpoch st' = latestEpoch st /\ commonReferenceString st' = commonReferenceString st.
Proof.
  intros Hs st'. subst st'.
  exec_split keccak256 staticcall tx st; try (repeat split; reflexivity);
    subst tx; simpl in Hs;
    match goal with Ho : isOwner _ _ = true |- _ =>
      unfold isOwner in Ho; apply Z.eqb_eq in Ho; contradiction end.
Qed.

(** X9.  The proof ledger of one caller is isolated from every other
    caller: a transaction sent by [a] changes no ledger entry recorded for
    a different caller [b]. *)
Theorem ledger_caller_isolation keccak256 staticcall tx st proofHash proof b :
  b <> tx_sender tx ->
  validatedProofs (exec keccak256 staticcall tx st) !! (proofHash, proof, b) =
  validatedProofs st !! (proofHash, proof, b).
Proof.
  intros Hb. exec_split keccak256 staticcall tx st; try reflexivity; subst tx; simpl in *.
  - apply record_map_notin. intros o _ Heq. inversion Heq. contradiction.
  - apply clear_map_notin. intros h' _ Heq. inversion Heq. contradiction.
Qed.

Lemma setProof_getValidatorAddress_roundtrip_witness :
  exists st1, setProof 1 65793 170 (deploy 1) = Ok (tt, st1) /\
              getValidatorAddress 65793 st1 = Ok (170, st1).
Proof.
  destruct (setProof_getValidatorAddress_roundtrip 1 65793 170 (deploy 1))
    as (st1 & H1 & H2 & _); [lia | reflexivity | vm_compute; discriminate
                            | reflexivity | lia | reflexivity |].
  exists st1. split; assumption.
Defined.

Lemma invalidateProof_sets_getter_witness :
  disabledValidators_getter st_invalidated 1 1 1 = true /\
  disabledValidators_getter st_invalidated 1 1 2 = disabledValidators_getter st_registered 1 1 2.
Proof.
  destruct (invalidateProof_sets_getter 1 1 1 1 st_registered st_invalidated)
    as (H1 & H2 & _); [lia | lia | lia | vm_compute; reflexivity |].
  split; [exact H1 | apply H2; [lia | lia | discriminate]].
Defined.

Lemma invalidateProof_idempotent_witness :
  invalidateProof 1 65793 st_invalidated = Ok (tt, st_invalidated).
Proof.
  apply (invalidateProof_idempotent 1 65793 st_registered st_invalidated).
  vm_compute. reflexivity.
Defined.

Lemma disabledValidators_getter_persistent_witness :
  disabledValidators_getter
    (exec sample_hash sample_validator (TxSetProof 1 2056 171) st_invalidated) 1 1 1 = true.
Proof.
  apply disabledValidators_getter_persistent. vm_compute. reflexivity.
Defined.

Lemma invalidateProof_disables_alias_witness :
  getValidatorAddress 2056 (commit (invalidateProof 1 65793) st_two_registered) =
  Revert DisabledValidator.
Proof.
  destruct (invalidateProof_disables_alias 1 65793 st_two_registered
              (commit (invalidateProof 1 65793) st_two_registered) 0 0) as (H1 & _).
  - vm_compute. reflexivity.
  - vm_compute. discriminate.
  - exact H1.
Defined.

Lemma latestEpoch_monotone_witness :
  1 <= latestEpoch (exec sample_hash sample_validator (TxIncrementLatestEpoch 1) (deploy 1)) <= 255.
Proof.
  apply (latestEpoch_monotone sample_hash sample_validator (TxIncrementLatestEpoch 1) (deploy 1)).
  simpl. lia.
Defined.

Lemma non_owner_tx_registry_unchanged_witness :
  validators (exec sample_hash sample_validator (TxInvalidateProof 2 65793) st_registered) =
  validators st_registered.
Proof.
  destruct (non_owner_tx_registry_unchanged sample_hash sample_validator
              (TxInvalidateProof 2 65793) st_registered) as (H1 & _).
  - vm_compute. discriminate.
  - exact H1.
Defined.

Lemma ledger_caller_isolation_witness :
  validatedProofs (exec sample_hash sample_validator (TxValidateProof 1 65793 7 []) st_registered)
    !! (2, 65793, 2) = validatedProofs st_registered !! (2, 65793, 2).
Proof.
  apply ledger_caller_isolation. simpl. lia.
Defined.
